(** * job_search_selenium: relevance filter, link deduplication, run orchestration

    A shallow embedding of [job_search_selenium.py].

    - A Python [str] is a [string]: the UTF-8 bytes of the text.  Substring
      search on well-formed UTF-8 agrees with substring search on code
      points, so [x in s] is byte-wise search.
    - [str.lower] is Unicode-aware and not part of this repository; the
      classifier takes it as the parameter [lower].  [ascii_lower] is its
      restriction to ASCII text and is used to run the code on examples.
    - The browser, the spreadsheet service and the wall clock are outside the
      program.  Their answers are read from a [World]; the calls made to them
      are recorded in a trace of [event]s.
    - Code that mutates the two managers and may raise lives in the monad [M]:
      a state transformer whose result is a value or a raised exception. *)

From Stdlib Require Import String Ascii List Bool Arith Lia.
From stdpp Require Import base decidable option list gmap strings pretty.
Import ListNotations.
Local Open Scope string_scope.
Local Open Scope list_scope.

(** ** Strings *)

(** [p] is a prefix of [s]. *)
Fixpoint starts_with (p s : string) : bool :=
  match p, s with
  | EmptyString, _ => true
  | String a p', String b s' => if Ascii.eqb a b then starts_with p' s' else false
  | String _ _, EmptyString => false
  end.

(** Python's [sub in s] on strings. *)
Fixpoint str_in (sub s : string) : bool :=
  starts_with sub s ||
  match s with
  | EmptyString => false
  | String _ s' => str_in sub s'
  end.

(** [sub] occurs in [s]: the mathematical reading of [sub in s]. *)
Definition Occurs (sub s : string) : Prop :=
  exists pre post, s = pre +:+ sub +:+ post.

(** Python's [any(t in s for t in terms)]. *)
Definition any_in (terms : list string) (s : string) : bool :=
  existsb (fun t => str_in t s) terms.

Definition lower_char (c : ascii) : ascii :=
  let n := nat_of_ascii c in
  if ((65 <=? n) && (n <=? 90))%nat then ascii_of_nat (n + 32) else c.

(** [str.lower] on ASCII text. *)
Fixpoint ascii_lower (s : string) : string :=
  match s with
  | EmptyString => EmptyString
  | String c s' => String (lower_char c) (ascii_lower s')
  end.

(** Python's [len] on a [str]: the number of code points, that is the number
    of bytes that are not UTF-8 continuation bytes. *)
Fixpoint py_len (s : string) : nat :=
  match s with
  | EmptyString => 0
  | String c s' =>
      let n := nat_of_ascii c in
      (if ((128 <=? n) && (n <? 192))%nat then 0 else 1) + py_len s'
  end.

(** ** Module constants *)

Definition SEARCH_TERMS : list string :=
  [ "digital health"; "telemedicine"; "eHealth"; "mHealth";
    "health IT"; "interoperability health"; "FHIR"; "HL7";
    "AI healthcare"; "health informatics"; "digitale Gesundheit"; "Telemedizin" ].

Definition EXPERIENCE_LEVELS : list string :=
  [ "junior"; "entry"; "graduate"; "trainee"; "praktikum"; "werkstudent" ].

Definition EXCLUDE_TERMS : list string :=
  [ "project manager"; "senior"; "lead"; "principal"; "director"; "head of"; "developer" ].

(** The literal list in the last line of [is_relevant_job]. *)
Definition SENIOR_TERMS : list string := [ "senior"; "lead"; "principal" ].

Record JobPosting := {
  title : string;
  company : string;
  location : string;
  languages : list string;
  link : string;
  date_posted : string;
  source : string
}.

(** ** Text classifier ([JobScraper]) *)

Section Classifier.

Variable lower : string -> string.

Definition is_relevant_job (title : string) : bool :=
  let title_lower := lower title in
  if existsb (fun exclude => str_in exclude title_lower) EXCLUDE_TERMS then false
  else
    let is_junior := existsb (fun level => str_in level title_lower) EXPERIENCE_LEVELS in
    is_junior || negb (existsb (fun term => str_in term title_lower) SENIOR_TERMS).

(** The dict literal of [extract_languages], in insertion order. *)
Definition patterns : list (string * list string) :=
  [ ("English", ["english"; "englisch"]); ("German", ["german"; "deutsch"]) ].

Definition extract_languages (text : string) : list string :=
  let text_lower := lower text in
  let languages :=
    fold_left
      (fun languages '(lang, terms) =>
         if existsb (fun term => str_in term text_lower) terms
         then languages ++ [lang] else languages)
      patterns [] in
  match languages with
  | [] => ["Not specified"]
  | _ :: _ => languages
  end.

End Classifier.

(** ** Exceptions, program state and the monad *)

Inductive exn := WebDriverException | APIError | AttributeError | IndexError.

Inductive outcome (A : Type) :=
| Ret (a : A)
| Raise (e : exn).

Arguments Ret {A} a.
Arguments Raise {A} e.

(** A sheet row, as [get_all_values] returns it and [append_rows] takes it. *)
Definition row : Type := list string.

(** Calls to the outside, in the order the program makes them; the two
    [EvLog..] events are the two log lines that close [save_jobs]. *)
Inductive event :=
| EvStartDriver
| EvGet (url : string)
| EvQuit (d : nat)
| EvOpen
| EvAddWorksheet
| EvAppendRow (r : row)
| EvGetAllValues
| EvAppendRows (rs : list row)
| EvLogSaved (n : nat)
| EvLogNoNew.

(** The calls that reach the spreadsheet service. *)
Definition is_persistence_call (e : event) : bool :=
  match e with
  | EvOpen | EvAddWorksheet | EvAppendRow _ | EvGetAllValues | EvAppendRows _ => true
  | _ => false
  end.

(** The fields of the two managers, the remote worksheet 'Vagas' ([None] when
    the spreadsheet has no such worksheet), the clock and the trace. *)
Record State := {
  driver : option nat;
  worksheet : bool;
  existing_links : gset string;
  vagas : option (list row);
  clock : nat;
  trace : list event
}.

Definition set_driver (d : option nat) (s : State) : State :=
  {| driver := d; worksheet := worksheet s; existing_links := existing_links s;
     vagas := vagas s; clock := clock s; trace := trace s |}.

Definition set_worksheet (b : bool) (s : State) : State :=
  {| driver := driver s; worksheet := b; existing_links := existing_links s;
     vagas := vagas s; clock := clock s; trace := trace s |}.

Definition set_existing_links (l : gset string) (s : State) : State :=
  {| driver := driver s; worksheet := worksheet s; existing_links := l;
     vagas := vagas s; clock := clock s; trace := trace s |}.

Definition set_vagas (v : option (list row)) (s : State) : State :=
  {| driver := driver s; worksheet := worksheet s; existing_links := existing_links s;
     vagas := v; clock := clock s; trace := trace s |}.

Definition set_clock (n : nat) (s : State) : State :=
  {| driver := driver s; worksheet := worksheet s; existing_links := existing_links s;
     vagas := vagas s; clock := n; trace := trace s |}.

Definition set_trace (t : list event) (s : State) : State :=
  {| driver := driver s; worksheet := worksheet s; existing_links := existing_links s;
     vagas := vagas s; clock := clock s; trace := t |}.

(** A fresh process: [WebDriverManager()] and [GoogleSheetsManager()]. *)
Definition init_state (remote : option (list row)) : State :=
  {| driver := None; worksheet := false; existing_links := ∅;
     vagas := remote; clock := 0; trace := [] |}.

Definition M (A : Type) : Type := State -> outcome A * State.

#[export] Instance M_ret : MRet M := fun A a s => (Ret a, s).

#[export] Instance M_bind : MBind M := fun A B f m s =>
  match m s with
  | (Ret a, s') => f a s'
  | (Raise e, s') => (Raise e, s')
  end.

Definition raise {A : Type} (e : exn) : M A := fun s => (Raise e, s).

Definition lift {A : Type} (o : outcome A) : M A := fun s => (o, s).

Definition gets {A : Type} (f : State -> A) : M A := fun s => (Ret (f s), s).

Definition modify (f : State -> State) : M unit := fun s => (Ret tt, f s).

(** [try: body except Exception as e: handler e]. *)
Definition try_except {A : Type} (body : M A) (handler : exn -> M A) : M A :=
  fun s =>
    match body s with
    | (Ret a, s') => (Ret a, s')
    | (Raise e, s') => handler e s'
    end.

(** [try: body finally: cleanup]: an exception of [cleanup] replaces the
    outcome of [body]. *)
Definition try_finally {A : Type} (body : M A) (cleanup : M unit) : M A :=
  fun s =>
    let '(r, s') := body s in
    match cleanup s' with
    | (Ret _, s'') => (r, s'')
    | (Raise e, s'') => (Raise e, s'')
    end.

Definition emit (e : event) : M unit :=
  modify (fun s => set_trace (trace s ++ [e]) s).

(** [datetime.now()]: the reading is the current tick, and time moves on. *)
Definition now : M nat :=
  fun s => (Ret (clock s), set_clock (S (clock s)) s).

(** ** The outside world of one run *)

Inductive Site := LinkedIn | Glassdoor | XING.

(** A listing element; a field is [None] when [find_element] raises for it. *)
Record Card := {
  card_title : option string;
  card_company : option string;
  card_location : option string;
  card_link : option string
}.

Record World := {
  (** [webdriver.Chrome(...)]: the new driver, or [None] when it raises *)
  chrome : option nat;
  (** [authorize], [open_by_key] and the worksheet lookup go through *)
  sheets_open_ok : bool;
  add_worksheet_ok : bool;
  append_row_ok : bool;
  get_all_values_ok : bool;
  append_rows_ok : bool;
  (** the cards found on the result page of a term, or [None] when loading,
      waiting, scrolling or [find_elements] raises *)
  page : Site -> string -> option (list Card);
  (** [strftime('%Y-%m-%d %H:%M')] and [strftime('%Y-%m-%d')] of a tick *)
  strftime_minute : nat -> string;
  strftime_day : nat -> string
}.

Section Program.

Variable lower : string -> string.
Variable w : World.

(** ** WebDriverManager *)

(** The driver is stored only when Chrome starts; a failure is logged and
    raised again. *)
Definition start_driver : M nat :=
  emit EvStartDriver;;
  match chrome w with
  | Some d => modify (set_driver (Some d));; mret d
  | None => raise WebDriverException
  end.

(** [driver.quit()] is taken to return: Chrome's [quit] swallows the errors
    of the session shutdown.  The field [driver] is not reset. *)
Definition close_driver : M unit :=
  d ← gets driver;
  match d with
  | Some d => emit (EvQuit d)
  | None => mret tt
  end.

(** ** GoogleSheetsManager *)

Definition headers : row :=
  [ "Data Cadastro"; "Título"; "Empresa"; "Localização"; "Idiomas"; "Link";
    "Data Publicação"; "Fonte" ].

Definition _setup_headers : M unit :=
  emit (EvAppendRow headers);;
  if append_row_ok w
  then modify (fun s => set_vagas ((fun rows => rows ++ [headers]) <$> vagas s) s)
  else raise APIError.

(** [self.worksheet.get_all_values()]; on [None] the attribute lookup raises. *)
Definition get_all_values : M (list row) :=
  ws ← gets worksheet;
  if negb ws then raise AttributeError
  else
    emit EvGetAllValues;;
    v ← gets vagas;
    match v with
    | Some rows => if get_all_values_ok w then mret rows else raise APIError
    | None => raise APIError
    end.

Definition link_column_index : nat := 5.

(** The set comprehension of [_load_existing_links]; [row[i]] raises
    [IndexError] out of range. *)
Fixpoint links_of_rows (rows : list row) : outcome (gset string) :=
  match rows with
  | [] => Ret ∅
  | row :: rest =>
      if (link_column_index <? length row)%nat then
        match row !! link_column_index with
        | Some l =>
            match links_of_rows rest with
            | Ret links => Ret ({[ l ]} ∪ links)
            | Raise e => Raise e
            end
        | None => Raise IndexError
        end
      else links_of_rows rest
  end.

Definition _load_existing_links : M unit :=
  all_values ← get_all_values;
  if (1 <? length all_values)%nat then
    links ← lift (links_of_rows (drop 1 all_values));
    modify (set_existing_links links)
  else mret tt.

Definition connect : M unit :=
  emit EvOpen;;
  if negb (sheets_open_ok w) then raise APIError
  else
    v ← gets vagas;
    match v with
    | Some _ => modify (set_worksheet true)
    | None =>
        emit EvAddWorksheet;;
        if add_worksheet_ok w then
          modify (set_vagas (Some []));;
          modify (set_worksheet true);;
          _setup_headers
        else raise APIError
    end;;
    _load_existing_links.

Definition row_of_job (stamp : string) (job : JobPosting) : row :=
  [ stamp; title job; company job; location job;
    String.concat ", " (languages job); link job; date_posted job; source job ].

(** The [for job in jobs] loop of [save_jobs], with [new_jobs] so far. *)
Fixpoint save_loop (jobs : list JobPosting) (new_jobs : list row) : M (list row) :=
  match jobs with
  | [] => mret new_jobs
  | job :: rest =>
      links ← gets existing_links;
      if decide (link job ∈ links) then save_loop rest new_jobs
      else
        t ← now;
        modify (fun s => set_existing_links ({[ link job ]} ∪ existing_links s) s);;
        save_loop rest (new_jobs ++ [row_of_job (strftime_minute w t) job])
  end.

(** [self.worksheet.append_rows(rows, ...)]. *)
Definition append_rows (rows : list row) : M unit :=
  ws ← gets worksheet;
  if negb ws then raise AttributeError
  else
    emit (EvAppendRows rows);;
    v ← gets vagas;
    match v with
    | Some old => if append_rows_ok w then modify (set_vagas (Some (old ++ rows)))
                  else raise APIError
    | None => raise APIError
    end.

Definition save_jobs (jobs : list JobPosting) : M unit :=
  new_jobs ← save_loop jobs [];
  match new_jobs with
  | _ :: _ => append_rows new_jobs;; emit (EvLogSaved (length new_jobs))
  | [] => emit EvLogNoNew
  end.

(** ** Scrapers *)

Definition site_name (site : Site) : string :=
  match site with
  | LinkedIn => "LinkedIn"
  | Glassdoor => "Glassdoor"
  | XING => "XING"
  end.

Definition search_url (site : Site) (term : string) : string :=
  match site with
  | LinkedIn =>
      "https://www.linkedin.com/jobs/search?keywords=" +:+ term +:+
      "&location=Germany&f_E=1,2&position=1&pageNum=0"
  | Glassdoor =>
      "https://www.glassdoor.de/Job/germany-" +:+ term +:+
      "-jobs-SRCH_IL.0,7_IN96_KO8," +:+ pretty (8 + py_len term)%nat +:+ ".htm?fromAge=7"
  | XING =>
      "https://www.xing.com/jobs/search?keywords=" +:+ term +:+
      "&location=Deutschland&radius=100"
  end.

(** The [for card in ...] loop: a card whose title is not relevant, or one of
    whose fields cannot be found, is skipped. *)
Fixpoint card_loop (site : Site) (cards : list Card) (jobs : list JobPosting)
  : M (list JobPosting) :=
  match cards with
  | [] => mret jobs
  | card :: rest =>
      match card_title card with
      | None => card_loop site rest jobs
      | Some title =>
          if negb (is_relevant_job lower title) then card_loop site rest jobs
          else
            match card_company card, card_location card, card_link card with
            | Some company, Some location, Some link =>
                t ← now;
                card_loop site rest
                  (jobs ++ [ {| title := title; company := company; location := location;
                                languages := extract_languages lower title; link := link;
                                date_posted := strftime_day w t;
                                source := site_name site |} ])
            | _, _, _ => card_loop site rest jobs
            end
      end
  end.

(** The [for term in ...] loop; a failing page is logged and the loop goes on. *)
Fixpoint term_loop (site : Site) (terms : list string) (jobs : list JobPosting)
  : M (list JobPosting) :=
  match terms with
  | [] => mret jobs
  | term :: rest =>
      emit (EvGet (search_url site term));;
      match page w site term with
      | Some job_cards =>
          jobs' ← card_loop site (take 20 job_cards) jobs;
          term_loop site rest jobs'
      | None => term_loop site rest jobs
      end
  end.

(** [search_jobs] of [LinkedInScraper], [GlassdoorScraper] and [XINGScraper]:
    the three differ in the URL, the selectors and the source tag. *)
Definition search_jobs (site : Site) : M (list JobPosting) :=
  term_loop site (take 3 SEARCH_TERMS) [].

(** ** JobSearchOrchestrator *)

(** The [for scraper in scrapers] loop; a scraper that raises is logged. *)
Fixpoint run_scrapers (scrapers : list (M (list JobPosting))) (all_jobs : list JobPosting)
  : M (list JobPosting) :=
  match scrapers with
  | [] => mret all_jobs
  | scraper :: rest =>
      all_jobs' ← try_except
                    (found_jobs ← scraper; mret (all_jobs ++ found_jobs))
                    (fun _ => mret all_jobs);
      run_scrapers rest all_jobs'
  end.

(** The [try] block of [run_search], for a given list of scrapers. *)
Definition search_and_save (scrapers : list (M (list JobPosting))) : M unit :=
  _ ← start_driver;
  connect;;
  all_jobs ← run_scrapers scrapers [];
  save_jobs all_jobs.

(** [run_search]: the [try] block, the handler that logs the error, and the
    [finally] block. *)
Definition run_search_with (scrapers : list (M (list JobPosting))) : M unit :=
  try_finally
    (try_except (search_and_save scrapers) (fun _ => mret tt))
    close_driver.

Definition run_search : M unit :=
  run_search_with [ search_jobs LinkedIn; search_jobs Glassdoor; search_jobs XING ].

End Program.

(** The claim's reading of the classifier: a title is relevant exactly when no
    exclusion phrase occurs in it.  Follows the words of the specification, to
    be compared with [is_relevant_job]. *)
Definition relevant_by_exclusion (lower : string -> string) (title : string) : bool :=
  negb (any_in EXCLUDE_TERMS (lower title)).

(** Some phrase of [terms] occurs in [s]. *)
Definition Matches (terms : list string) (s : string) : Prop :=
  exists t, In t terms /\ Occurs t s.

(** The candidates that [save_jobs] stages when [known] holds the links seen
    so far: the claim's reading of the loop, to be compared with [save_loop]. *)
Fixpoint fresh_jobs (known : gset string) (jobs : list JobPosting) : list JobPosting :=
  match jobs with
  | [] => []
  | job :: rest =>
      if decide (link job ∈ known) then fresh_jobs known rest
      else job :: fresh_jobs ({[ link job ]} ∪ known) rest
  end.

(** The rows of staged candidates, stamped at consecutive clock readings. *)
Fixpoint stamp_rows (w : World) (t : nat) (jobs : list JobPosting) : list row :=
  match jobs with
  | [] => []
  | job :: rest => row_of_job (strftime_minute w t) job :: stamp_rows w (S t) rest
  end.

(** The rows of [rows] whose link column holds [l]. *)
Definition rows_with_link (l : string) (rows : list row) : list row :=
  filter (fun r => r !! link_column_index = Some l) rows.

(** The world [w] with every result page cut to its first twenty cards. *)
Definition cap_pages (w : World) : World :=
  {| chrome := chrome w; sheets_open_ok := sheets_open_ok w;
     add_worksheet_ok := add_worksheet_ok w; append_row_ok := append_row_ok w;
     get_all_values_ok := get_all_values_ok w; append_rows_ok := append_rows_ok w;
     page := fun site term => take 20 <$> page w site term;
     strftime_minute := strftime_minute w; strftime_day := strftime_day w |}.

(** The URLs of the [driver.get] calls in a trace. *)
Definition requested_urls (t : list event) : list string :=
  omap (fun e => match e with EvGet url => Some url | _ => None end) t.

(** The number of result pages one [search_jobs] call asks for. *)
Definition terms_visited (lower : string -> string) (w : World) (site : Site) (s : State)
  : nat :=
  length (requested_urls
            (drop (length (trace s)) (trace (snd (search_jobs lower w site s))))).

(** A computation that leaves the driver field alone. *)
Definition keeps_driver {A : Type} (m : M A) : Prop :=
  forall s, driver (snd (m s)) = driver s.

(** ** Sample data *)

Definition sample_card (t l : string) : Card :=
  {| card_title := Some t; card_company := Some "Klinik AG";
     card_location := Some "Leipzig"; card_link := Some l |}.

(** A world in which LinkedIn shows [cards] for the first term and every other
    result page is empty. *)
Definition sample_world (browser : option nat) (append_ok : bool) (cards : list Card)
  : World :=
  {| chrome := browser; sheets_open_ok := true; add_worksheet_ok := true;
     append_row_ok := true; get_all_values_ok := true; append_rows_ok := append_ok;
     page := fun site term =>
       match site with
       | LinkedIn => if String.eqb term "digital health" then Some cards else Some []
       | _ => Some []
       end;
     strftime_minute := fun t => "2024-05-01 08:0" +:+ pretty t;
     strftime_day := fun _ => "2024-05-01" |}.

Definition sample_job (l : string) : JobPosting :=
  {| title := "Junior eHealth Analyst"; company := "Klinik AG"; location := "Leipzig";
     languages := ["Not specified"]; link := l; date_posted := "2024-05-01";
     source := "LinkedIn" |}.

(** A world whose browser starts while the spreadsheet service is out of
    reach. *)
Definition offline_world : World :=
  {| chrome := Some 1; sheets_open_ok := false; add_worksheet_ok := false;
     append_row_ok := false; get_all_values_ok := false; append_rows_ok := false;
     page := fun _ _ => Some [];
     strftime_minute := fun _ => "2024-05-01 08:00";
     strftime_day := fun _ => "2024-05-01" |}.

(** A sheet with the header row and one posting saved earlier. *)
Definition sample_sheet : list row :=
  [ headers; row_of_job "2024-04-30 20:00" (sample_job "https://jobs.example/1") ].

(** ** Readings of the sheet and of a result page *)

(** The link-column entries of the rows that have one, in sheet order. *)
Definition sheet_links (rows : list row) : list string :=
  omap (fun r => r !! link_column_index) rows.

(** No link occurs twice below the first row of the worksheet. *)
Definition unique_links (v : option (list row)) : Prop :=
  match v with
  | Some sheet => NoDup (sheet_links (drop 1 sheet))
  | None => True
  end.

(** Every link below the first row of the worksheet is a known link. *)
Definition links_covered (s : State) : Prop :=
  forall sheet l, vagas s = Some sheet -> l ∈ sheet_links (drop 1 sheet) ->
                  l ∈ existing_links s.







(** The row batches of the [append_rows] calls in a trace. *)
Definition append_calls (t : list event) : list (list row) :=
  omap (fun e => match e with EvAppendRows rows => Some rows | _ => None end) t.

(** A manager connected to [sample_sheet], its set mirroring the sheet. *)
Definition sample_state : State :=
  set_existing_links (list_to_set (sheet_links (drop 1 sample_sheet)))
    (set_worksheet true (init_state (Some sample_sheet))).

(** * Properties *)

(** ** Substring search *)

Lemma append_cons (a : ascii) (p post : string) :
  String a p +:+ post = String a (p +:+ post).
Proof. reflexivity. Qed.

Lemma starts_with_spec (p s : string) :
  starts_with p s = true <-> exists post, s = p +:+ post.
Proof.
  revert s. induction p as [|a p IH]; intros s; cbn.
  - split; [intros _; now exists s | reflexivity].
  - destruct s as [|b s].
    + split; [discriminate | intros [post H]; discriminate].
    + destruct (Ascii.eqb a b) eqn:E.
      * apply Ascii.eqb_eq in E. subst b. rewrite IH.
        split; intros [post H]; exists post; rewrite append_cons in *; congruence.
      * apply Ascii.eqb_neq in E.
        split; [discriminate | intros [post H]; rewrite append_cons in H; congruence].
Qed.

Lemma str_in_cons (sub : string) (c : ascii) (s : string) :
  str_in sub s = true -> str_in sub (String c s) = true.
Proof. intros H. cbn. rewrite H. apply orb_true_r. Qed.

Lemma str_in_occurs (sub s : string) : str_in sub s = true <-> Occurs sub s.
Proof.
  split.
  - induction s as [|c s IH]; cbn; rewrite orb_true_iff; intros [H|H]; try discriminate.
    + apply starts_with_spec in H as [post H]. now exists EmptyString, post.
    + apply starts_with_spec in H as [post H]. now exists EmptyString, post.
    + destruct (IH H) as (pre & post & ->). now exists (String c pre), post.
  - intros (pre & post & ->). induction pre as [|c pre IH].
    + assert (H : starts_with sub (sub +:+ post) = true)
        by (apply starts_with_spec; now exists post).
      change (EmptyString +:+ sub +:+ post) with (sub +:+ post).
      destruct (sub +:+ post); cbn in *; rewrite H; reflexivity.
    + rewrite append_cons. now apply str_in_cons.
Qed.

Lemma any_in_matches (terms : list string) (s : string) :
  existsb (fun t => str_in t s) terms = true <-> Matches terms s.
Proof.
  unfold Matches. rewrite existsb_exists.
  split; intros (t & Hin & H); exists t; split; auto; now apply str_in_occurs.
Qed.

Lemma any_in_no_match (terms : list string) (s : string) :
  existsb (fun t => str_in t s) terms = false <-> ~ Matches terms s.
Proof.
  rewrite <- any_in_matches. destruct (existsb _ terms); split; congruence.
Qed.

(** Turn the outcome of a phrase test into the fact it decides. *)
Ltac reflect_matches :=
  repeat match goal with
  | H : existsb _ _ = true |- _ => apply any_in_matches in H
  | H : existsb _ _ = false |- _ => apply any_in_no_match in H
  end.

(** Every senior-tier phrase is an exclusion phrase. *)
Lemma senior_terms_excluded (s : string) :
  existsb (fun t => str_in t s) EXCLUDE_TERMS = false ->
  existsb (fun t => str_in t s) SENIOR_TERMS = false.
Proof.
  unfold EXCLUDE_TERMS, SENIOR_TERMS. cbn [existsb]. intros H.
  repeat (apply orb_false_iff in H as [? H]).
  repeat (apply orb_false_iff; split); assumption.
Qed.

(** ** The text classifier *)

Section ClassifierFacts.

Variable lower : string -> string.

(** C1.  A title in whose lower-cased form an exclusion phrase occurs is
    rejected.  A title without exclusion phrase is accepted exactly when a
    junior phrase occurs in it or no senior-tier phrase does; so a title with
    neither exclusion nor senior-tier phrase is accepted. *)
Theorem is_relevant_job_spec (title : string) :
  (Matches EXCLUDE_TERMS (lower title) -> is_relevant_job lower title = false) /\
  (~ Matches EXCLUDE_TERMS (lower title) ->
     (is_relevant_job lower title = true <->
      Matches EXPERIENCE_LEVELS (lower title) \/ ~ Matches SENIOR_TERMS (lower title))) /\
  (~ Matches EXCLUDE_TERMS (lower title) -> ~ Matches SENIOR_TERMS (lower title) ->
     is_relevant_job lower title = true).
Proof.
  unfold is_relevant_job. cbv zeta.
  destruct (existsb _ EXCLUDE_TERMS) eqn:E.
  - apply any_in_matches in E. repeat split; try tauto; contradiction.
  - apply any_in_no_match in E.
    rewrite orb_true_iff, negb_true_iff, any_in_matches, any_in_no_match.
    repeat split; try tauto; contradiction.
Qed.

(** C10.  The junior/senior branch never decides: [is_relevant_job] is the
    negation of the exclusion test, so a title is relevant if and only if no
    exclusion phrase occurs in its lower-cased form. *)
Theorem is_relevant_job_is_exclusion_only (title : string) :
  is_relevant_job lower title = relevant_by_exclusion lower title /\
  (is_relevant_job lower title = true <-> ~ Matches EXCLUDE_TERMS (lower title)).
Proof.
  assert (H : is_relevant_job lower title = relevant_by_exclusion lower title).
  { unfold is_relevant_job, relevant_by_exclusion, any_in. cbv zeta.
    destruct (existsb _ EXCLUDE_TERMS) eqn:E; [reflexivity|].
    rewrite (senior_terms_excluded _ E). cbn. apply orb_true_r. }
  split; [exact H|].
  rewrite H. unfold relevant_by_exclusion, any_in.
  rewrite negb_true_iff. apply any_in_no_match.
Qed.

(** C4.  [extract_languages] lower-cases the text; its result holds the tag
    English exactly when an English synonym occurs, the tag German exactly
    when a German synonym occurs, and the sentinel tag exactly when neither
    group matched; it has no repeated tag and is never empty.  The two sample
    texts give both tags, and the sentinel alone. *)
Theorem extract_languages_spec (text : string) :
  let r := extract_languages lower text in
  let en := Matches ["english"; "englisch"] (lower text) in
  let de := Matches ["german"; "deutsch"] (lower text) in
  (forall tag, In tag r <->
     (tag = "English" /\ en) \/ (tag = "German" /\ de) \/
     (tag = "Not specified" /\ ~ en /\ ~ de)) /\
  NoDup r /\ r <> [] /\
  extract_languages ascii_lower "Fluent in English and Deutsch required"
    = ["English"; "German"] /\
  extract_languages ascii_lower "no language mentioned" = ["Not specified"].
Proof.
  cbv zeta. unfold extract_languages, patterns. cbn [fold_left app].
  destruct (existsb _ ["english"; "englisch"]) eqn:E;
    destruct (existsb _ ["german"; "deutsch"]) eqn:G;
    cbn [app]; reflect_matches.
  all: split; [intros tag; cbn [In]; intuition (subst; tauto || congruence) |].
  all: split; [apply (bool_decide_unpack _); vm_compute; exact I |].
  all: split; [discriminate |].
  all: split; vm_compute; reflexivity.
Qed.

End ClassifierFacts.

(** ** Running the monad *)

Ltac run_m :=
  repeat progress
    (unfold mbind, M_bind, mret, M_ret, raise, lift, gets, modify, emit, now,
       try_except, try_finally;
     cbn beta iota zeta delta
       [fst snd negb driver worksheet existing_links vagas clock trace
        set_driver set_worksheet set_existing_links set_vagas set_clock set_trace]).

(** ** Loading the known links *)

Lemma links_of_rows_total (rows : list row) :
  exists links, links_of_rows rows = Ret links /\
    forall l, l ∈ links <->
      exists r, r ∈ rows /\ r !! link_column_index = Some l.
Proof.
  induction rows as [|r0 rows (links & IH & Hin)]; cbn [links_of_rows].
  - exists ∅. split; [reflexivity|]. intros l. split.
    + intros H. now apply not_elem_of_empty in H.
    + intros (r & H & _). now apply elem_of_nil in H.
  - destruct (link_column_index <? length r0)%nat eqn:E.
    + apply Nat.ltb_lt in E.
      destruct (r0 !! link_column_index) as [l0|] eqn:L.
      * rewrite IH. exists ({[ l0 ]} ∪ links). split; [reflexivity|].
        intros l. rewrite elem_of_union, elem_of_singleton, Hin. split.
        -- intros [-> | (r & Hr & Hl)].
           ++ exists r0. split; [apply list_elem_of_here | exact L].
           ++ exists r. split; [now apply list_elem_of_further | exact Hl].
        -- intros (r & Hr & Hl). apply elem_of_cons in Hr as [-> | Hr].
           ++ left. congruence.
           ++ right. now exists r.
      * apply lookup_ge_None in L. lia.
    + apply Nat.ltb_ge in E. exists links. split; [exact IH|].
      intros l. rewrite Hin. split.
      * intros (r & Hr & Hl). exists r. split; [now apply list_elem_of_further | exact Hl].
      * intros (r & Hr & Hl). apply elem_of_cons in Hr as [-> | Hr].
        -- apply lookup_lt_Some in Hl. lia.
        -- now exists r.
Qed.

Lemma links_of_rows_short_row (pre post : list row) (r : row) :
  length r <= link_column_index ->
  links_of_rows (pre ++ r :: post) = links_of_rows (pre ++ post).
Proof.
  intros Hr. induction pre as [|r0 pre IH]; cbn [app links_of_rows].
  - apply Nat.ltb_ge in Hr. now rewrite Hr.
  - now rewrite IH.
Qed.

(** C6.  [_load_existing_links] never raises [IndexError].  A row with too
    few columns to reach the link column can be removed from the table
    without changing what is collected.  When the sheet is read, the load
    returns; if the sheet has more than one row the set becomes exactly the
    link-column entries of the rows after the first that are long enough;
    otherwise the set is left as it was. *)
Theorem load_existing_links_tolerates_short_rows (w : World) (s : State) :
  fst (_load_existing_links w s) <> Raise IndexError /\
  (forall pre post r, length r <= link_column_index ->
     links_of_rows (pre ++ r :: post) = links_of_rows (pre ++ post)) /\
  (forall all_values,
     worksheet s = true -> vagas s = Some all_values -> get_all_values_ok w = true ->
     exists s', _load_existing_links w s = (Ret tt, s') /\
       (1 < length all_values ->
        forall l, l ∈ existing_links s' <->
          exists r, r ∈ drop 1 all_values /\ link_column_index < length r /\
                    r !! link_column_index = Some l) /\
       (length all_values <= 1 -> existing_links s' = existing_links s)).
Proof.
  split; [|split; [apply links_of_rows_short_row|]].
  - unfold _load_existing_links, get_all_values. run_m.
    destruct (worksheet s); run_m; [|discriminate].
    destruct (vagas s) as [rows|]; run_m; [|discriminate].
    destruct (get_all_values_ok w); run_m; [|discriminate].
    destruct (1 <? length rows)%nat; run_m; [|discriminate].
    destruct (links_of_rows_total (drop 1 rows)) as (links & -> & _).
    run_m. discriminate.
  - intros all_values Hws Hv Hok.
    unfold _load_existing_links, get_all_values. run_m.
    rewrite Hws. run_m. rewrite Hv. run_m. rewrite Hok. run_m.
    destruct (1 <? length all_values)%nat eqn:E; run_m.
    + apply Nat.ltb_lt in E.
      destruct (links_of_rows_total (drop 1 all_values)) as (links & -> & Hin).
      run_m. eexists. split; [reflexivity|]. run_m. split; [|lia].
      intros _ l. rewrite Hin. split; intros (r & Hr & Hl); exists r; repeat split; auto.
      * now apply lookup_lt_Some in Hl.
      * tauto.
    + apply Nat.ltb_ge in E. eexists. split; [reflexivity|]. run_m.
      split; [lia | reflexivity].
Qed.

#[local] Set Warnings "-clear-no-such-hyp".

(** ** Deduplication in [save_jobs] *)

(** The loop computes the pure reading: it returns the rows of the fresh
    candidates, adds every candidate link to the set, and reads the clock
    once per staged row. *)
Lemma save_loop_eq (w : World) (jobs : list JobPosting) (new_jobs : list row) (s : State) :
  save_loop w jobs new_jobs s =
    (Ret (new_jobs ++ stamp_rows w (clock s) (fresh_jobs (existing_links s) jobs)),
     set_clock (clock s + length (fresh_jobs (existing_links s) jobs))
       (set_existing_links (existing_links s ∪ list_to_set (link <$> jobs)) s)).
Proof.
  revert new_jobs s. induction jobs as [|job rest IH]; intros new_jobs s.
  - cbn. rewrite app_nil_r, Nat.add_0_r, (right_id_L ∅ (∪)). destruct s; reflexivity.
  - cbn [save_loop fresh_jobs]. run_m.
    destruct (decide (link job ∈ existing_links s)) as [Hin|Hnin].
    + rewrite IH. do 3 f_equal. rewrite fmap_cons, list_to_set_cons. set_solver.
    + run_m. rewrite IH. run_m. cbn [stamp_rows length].
      rewrite <- app_assoc. cbn [app]. f_equal.
      unfold set_clock, set_existing_links; cbn. f_equal; [|lia].
      set_solver.
Qed.

Lemma fresh_jobs_known (known : gset string) (jobs : list JobPosting) :
  (forall job, job ∈ jobs -> link job ∈ known) -> fresh_jobs known jobs = [].
Proof.
  induction jobs as [|job rest IH]; intros H; cbn; [reflexivity|].
  rewrite decide_True by (apply H, list_elem_of_here).
  apply IH. intros j Hj. now apply H, list_elem_of_further.
Qed.

Lemma fresh_jobs_app (known : gset string) (a b : list JobPosting) :
  fresh_jobs known (a ++ b) =
  fresh_jobs known a ++ fresh_jobs (known ∪ list_to_set (link <$> a)) b.
Proof.
  revert known. induction a as [|job rest IH]; intros known; cbn.
  - now rewrite (right_id_L ∅ (∪)).
  - destruct (decide (link job ∈ known)); rewrite IH; cbn.
    + f_equal. f_equal. set_solver.
    + f_equal. f_equal. f_equal. set_solver.
Qed.

(** A staged candidate was unknown, and the staged links are pairwise
    different. *)
Lemma fresh_jobs_links (known : gset string) (jobs : list JobPosting) :
  NoDup (link <$> fresh_jobs known jobs) /\
  forall l, l ∈ (link <$> fresh_jobs known jobs) <-> (l ∉ known) /\ (l ∈ (link <$> jobs)).
Proof.
  revert known. induction jobs as [|job rest IH]; intros known; cbn.
  - split; [constructor | set_solver].
  - destruct (decide (link job ∈ known)) as [Hin|Hnin].
    + destruct (IH known) as [Hnd Hl]. split; [exact Hnd|].
      intros l. rewrite Hl. set_solver.
    + destruct (IH ({[ link job ]} ∪ known)) as [Hnd Hl]. cbn. split.
      * constructor; [|exact Hnd]. rewrite Hl. set_solver.
      * intros l. rewrite elem_of_cons, Hl.
        destruct (decide (l = link job)) as [->|]; set_solver.
Qed.

Lemma row_of_job_link (stamp : string) (job : JobPosting) :
  row_of_job stamp job !! link_column_index = Some (link job).
Proof. reflexivity. Qed.

Lemma rows_with_link_stamp (w : World) (l : string) (t : nat) (jobs : list JobPosting) :
  length (rows_with_link l (stamp_rows w t jobs)) =
  length (filter (fun j => link j = l) jobs).
Proof.
  unfold rows_with_link. revert t. induction jobs as [|job rest IH]; intros t;
    cbn [stamp_rows].
  - reflexivity.
  - rewrite !filter_cons, row_of_job_link.
    destruct (decide (Some (link job) = Some l)) as [E|E];
      destruct (decide (link job = l)) as [E'|E']; cbn; rewrite ?IH; congruence.
Qed.

Lemma NoDup_count_link (l : string) (jobs : list JobPosting) :
  NoDup (link <$> jobs) ->
  length (filter (fun j => link j = l) jobs) =
  if decide (l ∈ (link <$> jobs)) then 1 else 0.
Proof.
  induction jobs as [|job rest IH]; intros Hnd.
  - rewrite decide_False; [reflexivity | apply not_elem_of_nil].
  - rewrite fmap_cons in *. apply NoDup_cons in Hnd as [Hnin Hnd]. rewrite filter_cons.
    destruct (decide (link job = l)) as [<-|Hne]; cbn.
    + rewrite (IH Hnd), decide_False by exact Hnin.
      rewrite decide_True by apply list_elem_of_here. reflexivity.
    + rewrite (IH Hnd).
      destruct (decide (l ∈ link <$> rest)) as [H|H].
      * rewrite decide_True by now apply list_elem_of_further. reflexivity.
      * rewrite decide_False; [reflexivity|]. rewrite elem_of_cons. intros [?|?]; congruence.
Qed.

Lemma save_loop_app (w : World) (a b : list JobPosting) (new_jobs : list row) (s : State) :
  save_loop w (a ++ b) new_jobs s =
  match save_loop w a new_jobs s with
  | (Ret rows, s1) => save_loop w b rows s1
  | (Raise e, s1) => (Raise e, s1)
  end.
Proof.
  revert new_jobs s. induction a as [|job rest IH]; intros new_jobs s.
  - reflexivity.
  - cbn [app save_loop]. run_m.
    destruct (decide (link job ∈ existing_links s)); [apply IH|].
    run_m. apply IH.
Qed.

Lemma save_loop_known (w : World) (jobs : list JobPosting) (new_jobs : list row) (s : State) :
  (forall job, job ∈ jobs -> link job ∈ existing_links s) ->
  save_loop w jobs new_jobs s = (Ret new_jobs, s).
Proof.
  intros H. rewrite save_loop_eq, (fresh_jobs_known _ _ H). cbn [stamp_rows length].
  rewrite app_nil_r, Nat.add_0_r.
  replace (existing_links s ∪ list_to_set (link <$> jobs)) with (existing_links s).
  - now destruct s.
  - apply set_eq. intros l. rewrite elem_of_union, elem_of_list_to_set, list_elem_of_fmap.
    split; [tauto|]. intros [?|(job & -> & Hj)]; auto.
Qed.

(** Whatever becomes of the append, [save_jobs] leaves every candidate link
    in the set, and nothing else new. *)
Lemma save_jobs_links (w : World) (jobs : list JobPosting) (s : State) :
  existing_links (snd (save_jobs w jobs s)) =
  existing_links s ∪ list_to_set (link <$> jobs).
Proof.
  unfold save_jobs. run_m. rewrite save_loop_eq. cbn [app].
  destruct (stamp_rows w (clock s) _) as [|r rows]; run_m; [reflexivity|].
  unfold append_rows. run_m.
  destruct (worksheet s); run_m; [|reflexivity].
  destruct (vagas s); run_m; [|reflexivity].
  destruct (append_rows_ok w); run_m; reflexivity.
Qed.

(** With the sheet connected and the append going through, the rows saved
    are the rows staged. *)
Lemma save_jobs_saved (w : World) (jobs : list JobPosting) (s : State) (old : list row) :
  worksheet s = true -> vagas s = Some old -> append_rows_ok w = true ->
  exists s', save_jobs w jobs s = (Ret tt, s') /\
    vagas s' = Some (old ++ stamp_rows w (clock s) (fresh_jobs (existing_links s) jobs)).
Proof.
  intros Hws Hv Hok. unfold save_jobs. run_m. rewrite save_loop_eq. cbn [app].
  destruct (stamp_rows w (clock s) _) as [|r rows]; run_m.
  - eexists. split; [reflexivity|]. run_m. now rewrite app_nil_r.
  - unfold append_rows. run_m. rewrite Hws. run_m. rewrite Hv. run_m. rewrite Hok. run_m.
    eexists. split; reflexivity.
Qed.

(** C2.  The loop of [save_jobs] takes the candidates one at a time against
    the running set: after any prefix of the batch, the next candidate is
    staged exactly when its link is not in the set at that moment, and its
    link is then in the set at once.  For every link the staged rows hold
    one row if the link occurs in the batch and was unknown, and none
    otherwise.  So a batch of two candidates sharing a link not seen before
    saves exactly one row. *)
Theorem save_jobs_dedups_on_running_set (w : World) :
  (forall pre job s,
     exists rows s1, save_loop w pre [] s = (Ret rows, s1) /\
       save_loop w (pre ++ [job]) [] s =
         if decide (link job ∈ existing_links s1) then (Ret rows, s1)
         else (Ret (rows ++ [row_of_job (strftime_minute w (clock s1)) job]),
               set_existing_links ({[ link job ]} ∪ existing_links s1)
                 (set_clock (S (clock s1)) s1))) /\
  (forall jobs s l,
     exists rows s1, save_loop w jobs [] s = (Ret rows, s1) /\
       length (rows_with_link l rows) =
         if decide (l ∈ existing_links s) then 0
         else if decide (l ∈ (link <$> jobs)) then 1 else 0) /\
  (forall j1 j2 s old,
     link j1 = link j2 -> link j1 ∉ existing_links s ->
     worksheet s = true -> vagas s = Some old -> append_rows_ok w = true ->
     exists s', save_jobs w [j1; j2] s = (Ret tt, s') /\
       vagas s' = Some (old ++ [row_of_job (strftime_minute w (clock s)) j1])).
Proof.
  split; [|split].
  - intros pre job s. rewrite save_loop_app.
    destruct (save_loop w pre [] s) as [[rows|e] s1] eqn:E.
    + exists rows, s1. split; [reflexivity|].
      cbn [save_loop]. run_m.
      destruct (decide (link job ∈ existing_links s1)); reflexivity.
    + rewrite save_loop_eq in E. discriminate.
  - intros jobs s l. rewrite save_loop_eq. eexists _, _. split; [reflexivity|].
    cbn [app]. rewrite rows_with_link_stamp.
    destruct (fresh_jobs_links (existing_links s) jobs) as [Hnd Hl].
    rewrite (NoDup_count_link _ _ Hnd).
    destruct (decide (l ∈ existing_links s)) as [Hk|Hk].
    + rewrite decide_False; [reflexivity|]. rewrite Hl. tauto.
    + destruct (decide (l ∈ (link <$> jobs))) as [Hj|Hj].
      * rewrite decide_True; [reflexivity|]. rewrite Hl. tauto.
      * rewrite decide_False; [reflexivity|]. rewrite Hl. tauto.
  - intros j1 j2 s old Heq Hnew Hws Hv Hok.
    destruct (save_jobs_saved w [j1; j2] s old Hws Hv Hok) as (s' & Hrun & Hsaved).
    exists s'. split; [exact Hrun|]. rewrite Hsaved. cbn [fresh_jobs].
    rewrite decide_False by exact Hnew.
    rewrite decide_True by (rewrite <- Heq; apply elem_of_union_l, elem_of_singleton; reflexivity).
    reflexivity.
Qed.

(** C3.  After [save_jobs] has been given a batch, in whatever way that call
    ended, giving it the same batch again stages nothing: the second call
    makes no append, leaves sheet and set as they are, logs that nothing is
    new, and returns without raising. *)
Theorem save_jobs_twice_saves_nothing (w1 w2 : World) (jobs : list JobPosting) (s : State) :
  let s1 := snd (save_jobs w1 jobs s) in
  save_loop w2 jobs [] s1 = (Ret [], s1) /\
  save_jobs w2 jobs s1 = (Ret tt, set_trace (trace s1 ++ [EvLogNoNew]) s1).
Proof.
  cbv zeta.
  assert (H : save_loop w2 jobs [] (snd (save_jobs w1 jobs s))
              = (Ret [], snd (save_jobs w1 jobs s))).
  { apply save_loop_known. intros job Hj. rewrite save_jobs_links.
    apply elem_of_union_r, elem_of_list_to_set, list_elem_of_fmap. now exists job. }
  split; [exact H|]. unfold save_jobs at 1. run_m. rewrite H. reflexivity.
Qed.

(** ** The known-links set over time *)

(** C5, as the code has it.  Every call to [save_jobs] leaves the set a
    superset of what it was and adds exactly the links of the rows it
    staged, whether or not the append goes through.
    [_load_existing_links], which [connect] runs at the start of every run,
    does not grow the set but assigns it: when the sheet is read and has
    more than one row, the set becomes the links collected from the rows
    after the first; in every other case it is left as it was. *)
Theorem known_links_grow_in_save_jobs (w : World) (s : State) :
  (forall jobs,
     exists rows s1, save_loop w jobs [] s = (Ret rows, s1) /\
       existing_links s ⊆ existing_links (snd (save_jobs w jobs s)) /\
       forall l, l ∈ existing_links (snd (save_jobs w jobs s)) <->
                 l ∈ existing_links s \/
                 exists r, r ∈ rows /\ r !! link_column_index = Some l) /\
  (forall all_values,
     worksheet s = true -> vagas s = Some all_values ->
     get_all_values_ok w = true -> 1 < length all_values ->
     links_of_rows (drop 1 all_values)
       = Ret (existing_links (snd (_load_existing_links w s)))) /\
  (worksheet s = false \/ vagas s = None \/ get_all_values_ok w = false \/
   (exists all_values, vagas s = Some all_values /\ length all_values <= 1) ->
   existing_links (snd (_load_existing_links w s)) = existing_links s).
Proof.
  split; [|split].
  - intros jobs. rewrite save_loop_eq. eexists _, _. split; [reflexivity|].
    rewrite save_jobs_links. split; [apply union_subseteq_l|].
    intros l. cbn [app]. rewrite elem_of_union, elem_of_list_to_set.
    destruct (fresh_jobs_links (existing_links s) jobs) as [_ Hl].
    split.
    + intros [Hk|Hj]; [now left|].
      destruct (decide (l ∈ existing_links s)) as [Hk|Hk]; [now left|right].
      assert (Hf : l ∈ (link <$> fresh_jobs (existing_links s) jobs)) by now apply Hl.
      apply list_elem_of_fmap in Hf as (job & -> & Hjob).
      revert Hjob. generalize (clock s). generalize (fresh_jobs (existing_links s) jobs).
      intros fresh. induction fresh as [|j0 fresh IH]; intros t Hjob.
      * now apply elem_of_nil in Hjob.
      * apply elem_of_cons in Hjob as [->|Hjob].
        -- eexists. split; [apply list_elem_of_here | apply row_of_job_link].
        -- destruct (IH (S t) Hjob) as (r & Hr & Hrl).
           exists r. split; [now apply list_elem_of_further | exact Hrl].
    + intros [Hk|(r & Hr & Hrl)]; [now left|right].
      assert (Hf : l ∈ (link <$> fresh_jobs (existing_links s) jobs)); [|now apply Hl in Hf].
      revert Hr. generalize (clock s). generalize (fresh_jobs (existing_links s) jobs).
      intros fresh. induction fresh as [|j0 fresh IH]; intros t Hr.
      * now apply elem_of_nil in Hr.
      * cbn [stamp_rows] in Hr. rewrite fmap_cons.
        apply elem_of_cons in Hr as [->|Hr].
        -- rewrite row_of_job_link in Hrl. injection Hrl as <-. apply list_elem_of_here.
        -- apply list_elem_of_further. now apply (IH (S t)).
  - intros all_values Hws Hv Hok Hlen.
    unfold _load_existing_links, get_all_values. run_m.
    rewrite Hws. run_m. rewrite Hv. run_m. rewrite Hok. run_m.
    apply Nat.ltb_lt in Hlen. rewrite Hlen.
    destruct (links_of_rows_total (drop 1 all_values)) as (links & -> & _).
    run_m. reflexivity.
  - unfold _load_existing_links, get_all_values. run_m.
    destruct (worksheet s); run_m; [|reflexivity].
    destruct (vagas s) as [rows|]; run_m; [|reflexivity].
    destruct (get_all_values_ok w); run_m; [|reflexivity].
    intros [?|[?|[?|(all_values & Hv & Hlen)]]]; try discriminate.
    injection Hv as ->. apply Nat.ltb_ge in Hlen. rewrite Hlen. reflexivity.
Qed.

(** C5 as stated fails.  First run: the sheet holds one saved posting, a new
    posting is found and its link enters the set, and the append raises.
    Second run: [connect] reloads the set from the sheet, and the link of
    the first run is gone. *)
Lemma known_links_shrink_on_reconnect :
  let w1 := sample_world (Some 1) false
              [sample_card "Junior eHealth Analyst" "https://jobs.example/2"] in
  let w2 := sample_world (Some 2) true [] in
  let s1 := snd (run_search ascii_lower w1 (init_state (Some sample_sheet))) in
  let s2 := snd (connect w2 s1) in
  ~ (existing_links s1 ⊆ existing_links s2).
Proof.
  cbv zeta. intros H.
  assert (H1 : bool_decide ("https://jobs.example/2" ∈ existing_links
             (snd (run_search ascii_lower
                (sample_world (Some 1) false
                   [sample_card "Junior eHealth Analyst" "https://jobs.example/2"])
                (init_state (Some sample_sheet))))) = true)
    by (vm_compute; reflexivity).
  apply bool_decide_eq_true in H1. apply H in H1.
  apply (bool_decide_eq_true_2 _) in H1. vm_compute in H1. discriminate.
Qed.

(** The same loss without any failure: a worksheet that exists but is blank
    gets the first saved row where the header is expected, and the next load
    skips it. *)
Example known_links_shrink_on_blank_sheet :
  let w1 := sample_world (Some 1) true
              [sample_card "Junior eHealth Analyst" "https://jobs.example/2";
               sample_card "Trainee Telemedizin" "https://jobs.example/3"] in
  let s1 := snd (run_search ascii_lower w1 (init_state (Some []))) in
  let s2 := snd (connect w1 s1) in
  elements (existing_links s1) = ["https://jobs.example/3"; "https://jobs.example/2"] /\
  elements (existing_links s2) = ["https://jobs.example/3"].
Proof. vm_compute. split; reflexivity. Qed.

(** ** Frame: what leaves the driver field alone *)

Lemma keeps_driver_bind {A B : Type} (m : M A) (f : A -> M B) :
  keeps_driver m -> (forall a, keeps_driver (f a)) -> keeps_driver (m ≫= f).
Proof.
  intros Hm Hf s. run_m. specialize (Hm s).
  destruct (m s) as [[a|e] s1]; run_m; cbn [snd] in Hm; [|exact Hm].
  now rewrite Hf.
Qed.

Lemma keeps_driver_try_except {A : Type} (m : M A) (h : exn -> M A) :
  keeps_driver m -> (forall e, keeps_driver (h e)) -> keeps_driver (try_except m h).
Proof.
  intros Hm Hh s. run_m. specialize (Hm s).
  destruct (m s) as [[a|e] s1]; run_m; cbn [snd] in Hm; [exact Hm|].
  now rewrite Hh.
Qed.

Lemma keeps_driver_ret {A : Type} (a : A) : keeps_driver (mret a).
Proof. intros s. reflexivity. Qed.

Lemma keeps_driver_connect (w : World) : keeps_driver (connect w).
Proof.
  intros s. unfold connect, _setup_headers, _load_existing_links, get_all_values. run_m.
  destruct (sheets_open_ok w); run_m; [|reflexivity].
  destruct (vagas s) as [rows|] eqn:Hv; run_m.
  - rewrite Hv. run_m.
    destruct (get_all_values_ok w); run_m; [|reflexivity].
    destruct (1 <? length rows)%nat; run_m; [|reflexivity].
    destruct (links_of_rows (drop 1 rows)); run_m; reflexivity.
  - destruct (add_worksheet_ok w); run_m; [|reflexivity].
    destruct (append_row_ok w); run_m; [|reflexivity].
    destruct (get_all_values_ok w); run_m; reflexivity.
Qed.

Lemma keeps_driver_save_jobs (w : World) (jobs : list JobPosting) :
  keeps_driver (save_jobs w jobs).
Proof.
  intros s. unfold save_jobs. run_m. rewrite save_loop_eq. cbn [app].
  destruct (stamp_rows w (clock s) _) as [|r rows]; run_m; [reflexivity|].
  unfold append_rows. run_m.
  destruct (worksheet s); run_m; [|reflexivity].
  destruct (vagas s); run_m; [|reflexivity].
  destruct (append_rows_ok w); run_m; reflexivity.
Qed.

Lemma keeps_driver_run_scrapers (scrapers : list (M (list JobPosting)))
    (all_jobs : list JobPosting) :
  Forall keeps_driver scrapers -> keeps_driver (run_scrapers scrapers all_jobs).
Proof.
  intros H. revert all_jobs. induction H as [|scraper rest Hs _ IH]; intros all_jobs.
  - apply keeps_driver_ret.
  - cbn [run_scrapers]. apply keeps_driver_bind; [|exact IH].
    apply keeps_driver_try_except; [|intros _; apply keeps_driver_ret].
    apply keeps_driver_bind; [exact Hs | intros a; apply keeps_driver_ret].
Qed.


(** ** The scrapers *)

Lemma card_loop_run (lower : string -> string) (w : World) (site : Site)
    (cards : list Card) (jobs : list JobPosting) (s : State) :
  exists jobs' n,
    card_loop lower w site cards jobs s = (Ret jobs', set_clock n s) /\
    length jobs' <= length jobs + length cards.
Proof.
  revert jobs s. induction cards as [|card rest IH]; intros jobs s.
  - exists jobs, (clock s). split; [now destruct s | cbn; lia].
  - cbn [card_loop length].
    assert (Hskip : exists jobs' n,
               card_loop lower w site rest jobs s = (Ret jobs', set_clock n s) /\
               length jobs' <= length jobs + S (length rest)).
    { destruct (IH jobs s) as (jobs' & n & E & Hlen). exists jobs', n. split; [exact E | lia]. }
    destruct (card_title card) as [title|]; [|exact Hskip].
    destruct (negb (is_relevant_job lower title)); [exact Hskip|].
    destruct (card_company card) as [company|]; [|exact Hskip].
    destruct (card_location card) as [location|]; [|exact Hskip].
    destruct (card_link card) as [link|]; [|exact Hskip].
    run_m.
    match goal with |- context [card_loop lower w site rest ?js ?st] =>
      destruct (IH js st) as (jobs' & n & E & Hlen) end.
    exists jobs', n. split; [exact E|].
    rewrite length_app in Hlen. cbn [length] in Hlen. lia.
Qed.

Lemma term_loop_run (lower : string -> string) (w : World) (site : Site)
    (terms : list string) (jobs : list JobPosting) (s : State) :
  exists jobs' n,
    term_loop lower w site terms jobs s =
      (Ret jobs',
       set_clock n
         (set_trace (trace s ++ ((fun term => EvGet (search_url site term)) <$> terms)) s)) /\
    length jobs' <= length jobs + 20 * length terms.
Proof.
  revert jobs s. induction terms as [|term rest IH]; intros jobs s.
  - exists jobs, (clock s). cbn. rewrite app_nil_r. split; [now destruct s | lia].
  - cbn [term_loop length]. run_m. rewrite fmap_cons.
    destruct (page w site term) as [job_cards|].
    + match goal with |- context [card_loop lower w site ?cs ?js ?st] =>
        destruct (card_loop_run lower w site cs js st) as (jobs1 & n1 & -> & Hlen1) end.
      destruct (IH jobs1 (set_clock n1 (set_trace (trace s ++ [EvGet (search_url site term)]) s)))
        as (jobs' & n & -> & Hlen).
      exists jobs', n. split.
      * run_m. rewrite <- app_assoc. reflexivity.
      * rewrite length_take in Hlen1. lia.
    + destruct (IH jobs (set_trace (trace s ++ [EvGet (search_url site term)]) s))
        as (jobs' & n & -> & Hlen).
      exists jobs', n. split.
      * run_m. rewrite <- app_assoc. reflexivity.
      * lia.
Qed.

Lemma keeps_driver_search_jobs (lower : string -> string) (w : World) (site : Site) :
  keeps_driver (search_jobs lower w site).
Proof.
  intros s. unfold search_jobs.
  destruct (term_loop_run lower w site (take 3 SEARCH_TERMS) [] s) as (jobs & n & -> & _).
  reflexivity.
Qed.

Lemma card_loop_cap (lower : string -> string) (w : World) (site : Site)
    (cards : list Card) (jobs : list JobPosting) (s : State) :
  card_loop lower (cap_pages w) site cards jobs s = card_loop lower w site cards jobs s.
Proof.
  revert jobs s. induction cards as [|card rest IH]; intros jobs s; [reflexivity|].
  cbn [card_loop].
  destruct (card_title card) as [title|]; [|apply IH].
  destruct (negb (is_relevant_job lower title)); [apply IH|].
  destruct (card_company card); [|apply IH].
  destruct (card_location card); [|apply IH].
  destruct (card_link card); [|apply IH].
  run_m. apply IH.
Qed.

Lemma term_loop_cap (lower : string -> string) (w : World) (site : Site)
    (terms : list string) (jobs : list JobPosting) (s : State) :
  term_loop lower (cap_pages w) site terms jobs s = term_loop lower w site terms jobs s.
Proof.
  revert jobs s. induction terms as [|term rest IH]; intros jobs s; [reflexivity|].
  cbn [term_loop]. run_m. cbn [page cap_pages].
  destruct (page w site term) as [job_cards|]; cbn [fmap option_fmap option_map]; [|apply IH].
  rewrite take_take, Nat.min_id, card_loop_cap.
  destruct (card_loop lower w site (take 20 job_cards) jobs _) as [[jobs1|e] s1];
    [apply IH | reflexivity].
Qed.

Lemma search_jobs_run (lower : string -> string) (w : World) (site : Site) (s : State) :
  exists jobs n,
    search_jobs lower w site s =
      (Ret jobs,
       set_clock n
         (set_trace
            (trace s ++ ((fun term => EvGet (search_url site term)) <$> take 3 SEARCH_TERMS))
            s)) /\
    length jobs <= 3 * 20.
Proof.
  unfold search_jobs.
  destruct (term_loop_run lower w site (take 3 SEARCH_TERMS) [] s) as (jobs & n & E & Hlen).
  exists jobs, n. split; [exact E|]. cbn in Hlen. lia.
Qed.

(** Whatever the pages hold, a scraper asks for three of them. *)
Lemma terms_visited_three (lower : string -> string) (w : World) (site : Site) (s : State) :
  terms_visited lower w site s = 3.
Proof.
  unfold terms_visited.
  destruct (search_jobs_run lower w site s) as (jobs & n & -> & _).
  run_m. rewrite drop_app_length. reflexivity.
Qed.

(** C9, as the code has it.  Each scraper asks for the result pages of the
    first three entries of [SEARCH_TERMS], in order, and of no other term:
    the bound 3 is a literal of [search_jobs].  It never raises, changes
    nothing but the clock and the trace, and looks at the first twenty cards
    of a page only, so that it returns at most sixty postings. *)
Theorem search_jobs_three_terms_twenty_cards
    (lower : string -> string) (w : World) (site : Site) (s : State) :
  take 3 SEARCH_TERMS = ["digital health"; "telemedicine"; "eHealth"] /\
  (exists jobs n,
     search_jobs lower w site s =
       (Ret jobs,
        set_clock n
          (set_trace
             (trace s ++ ((fun term => EvGet (search_url site term)) <$> take 3 SEARCH_TERMS))
             s)) /\
     length jobs <= 3 * 20) /\
  terms_visited lower w site s = 3 /\
  search_jobs lower (cap_pages w) site s = search_jobs lower w site s.
Proof.
  split; [reflexivity|]. split; [apply search_jobs_run|].
  split; [apply terms_visited_three|]. apply term_loop_cap.
Qed.

(** C9 as stated fails: the number of terms a scraper visits is not a bound
    that anything configures.  No string function, world, site or state
    makes it differ from three. *)
Lemma search_terms_bound_is_literal :
  ~ (exists lower w site s, terms_visited lower w site s <> 3).
Proof. intros (lower & w & site & s & H). apply H, terms_visited_three. Qed.

(** ** One run of the orchestrator *)

Lemma try_except_returns (m : M unit) (s : State) :
  exists s1, try_except m (fun _ => mret tt) s = (Ret tt, s1).
Proof. run_m. destruct (m s) as [[[]|e] s1]; run_m; eauto. Qed.

Lemma search_and_save_keeps_new_driver (w : World) (scrapers : list (M (list JobPosting)))
    (s : State) (d : nat) :
  chrome w = Some d -> Forall keeps_driver scrapers ->
  driver (snd (try_except (search_and_save w scrapers) (fun _ => mret tt) s)) = Some d.
Proof.
  intros Hd Hs.
  assert (Hrest : keeps_driver
            (try_except
               (connect w;; all_jobs ← run_scrapers scrapers []; save_jobs w all_jobs)
               (fun _ => mret tt))).
  { apply keeps_driver_try_except; [|intros _; apply keeps_driver_ret].
    apply keeps_driver_bind; [apply keeps_driver_connect|]. intros _.
    apply keeps_driver_bind; [now apply keeps_driver_run_scrapers|].
    intros jobs. apply keeps_driver_save_jobs. }
  specialize (Hrest (set_driver (Some d) (set_trace (trace s ++ [EvStartDriver]) s))).
  unfold search_and_save, start_driver. run_m. rewrite Hd. run_m.
  revert Hrest. run_m. intros Hrest. exact Hrest.
Qed.

Lemma close_driver_run (s : State) :
  close_driver s =
  (Ret tt, set_trace (trace s ++ match driver s with Some d => [EvQuit d] | None => [] end) s).
Proof.
  unfold close_driver. run_m. destruct (driver s) eqn:E; run_m.
  - reflexivity.
  - rewrite app_nil_r. now destruct s.
Qed.

(** C7.  When [start_driver] raises, the run returns normally; it has made
    the attempt to start the browser and then the cleanup (which quits a
    driver left from an earlier run, if there is one) and nothing else: no
    call reaches the spreadsheet service, and sheet, known links and
    worksheet handle are as before. *)
Theorem start_driver_failure_ends_in_cleanup
    (w : World) (scrapers : list (M (list JobPosting))) (s : State) :
  chrome w = None ->
  exists s',
    run_search_with w scrapers s = (Ret tt, s') /\
    trace s' = trace s ++ EvStartDriver ::
                 match driver s with Some d => [EvQuit d] | None => [] end /\
    Forall (fun e => is_persistence_call e = false) (drop (length (trace s)) (trace s')) /\
    vagas s' = vagas s /\ existing_links s' = existing_links s /\
    worksheet s' = worksheet s.
Proof.
  intros Hd. unfold run_search_with, search_and_save, start_driver. run_m.
  rewrite Hd. run_m. rewrite close_driver_run. run_m.
  eexists. split; [reflexivity|]. run_m. rewrite <- app_assoc. cbn [app].
  split; [reflexivity|]. rewrite drop_app_length.
  repeat split. destruct (driver s); repeat constructor.
Qed.

(** C8.  For every world, every list of scrapers and every starting state,
    whichever call raises: the [try] block with its handler returns, the
    cleanup [close_driver] runs in the state it leaves, and the run returns
    normally.  A driver held at that point is quit as the last call of the
    run; and when this run started a driver and the scrapers leave the
    driver field alone, as those of [run_search] do, that driver is the one
    held.  So [run_search] always returns, and quits the driver it started. *)
Theorem run_search_always_closes_driver
    (lower : string -> string) (w : World) (s : State) :
  (forall scrapers,
     exists s1,
       try_except (search_and_save w scrapers) (fun _ => mret tt) s = (Ret tt, s1) /\
       run_search_with w scrapers s = close_driver s1 /\
       fst (close_driver s1) = Ret tt /\
       (forall d, driver s1 = Some d ->
          trace (snd (run_search_with w scrapers s)) = trace s1 ++ [EvQuit d]) /\
       (forall d, chrome w = Some d -> Forall keeps_driver scrapers ->
          driver s1 = Some d)) /\
  fst (run_search lower w s) = Ret tt /\
  (forall d, chrome w = Some d ->
     exists t, trace (snd (run_search lower w s)) = t ++ [EvQuit d]).
Proof.
  assert (Hgen : forall scrapers,
     exists s1,
       try_except (search_and_save w scrapers) (fun _ => mret tt) s = (Ret tt, s1) /\
       run_search_with w scrapers s = close_driver s1 /\
       fst (close_driver s1) = Ret tt /\
       (forall d, driver s1 = Some d ->
          trace (snd (run_search_with w scrapers s)) = trace s1 ++ [EvQuit d]) /\
       (forall d, chrome w = Some d -> Forall keeps_driver scrapers ->
          driver s1 = Some d)).
  { intros scrapers.
    destruct (try_except_returns (search_and_save w scrapers) s) as [s1 E].
    assert (Hrun : run_search_with w scrapers s = close_driver s1).
    { unfold run_search_with, try_finally. rewrite E, close_driver_run. reflexivity. }
    exists s1. split; [exact E|]. split; [exact Hrun|].
    split; [now rewrite close_driver_run|]. split.
    - intros d Hd. rewrite Hrun, close_driver_run, Hd. reflexivity.
    - intros d Hd Hs.
      pose proof (search_and_save_keeps_new_driver w scrapers s d Hd Hs) as H.
      now rewrite E in H. }
  split; [exact Hgen|].
  destruct (Hgen [search_jobs lower w LinkedIn; search_jobs lower w Glassdoor;
                  search_jobs lower w XING]) as (s1 & _ & Hrun & Hret & Hquit & Hkeep).
  fold (run_search lower w) in Hrun, Hquit. split; [now rewrite Hrun|].
  intros d Hd. exists (trace s1). apply Hquit, Hkeep; [exact Hd|].
  repeat constructor; apply keeps_driver_search_jobs.
Qed.

(** * The theorems at concrete inputs *)

(** A title with a seniority word is rejected; a title with neither an
    exclusion nor a senior-tier phrase is accepted. *)
Lemma is_relevant_job_spec_witness :
  (Matches EXCLUDE_TERMS (ascii_lower "Senior Data Analyst") /\
   is_relevant_job ascii_lower "Senior Data Analyst" = false) /\
  (~ Matches EXCLUDE_TERMS (ascii_lower "Health Data Analyst") /\
   ~ Matches SENIOR_TERMS (ascii_lower "Health Data Analyst") /\
   is_relevant_job ascii_lower "Health Data Analyst" = true).
Proof.
  assert (H1 : Matches EXCLUDE_TERMS (ascii_lower "Senior Data Analyst"))
    by (apply any_in_matches; vm_compute; reflexivity).
  assert (H2 : ~ Matches EXCLUDE_TERMS (ascii_lower "Health Data Analyst"))
    by (apply any_in_no_match; vm_compute; reflexivity).
  assert (H3 : ~ Matches SENIOR_TERMS (ascii_lower "Health Data Analyst"))
    by (apply any_in_no_match; vm_compute; reflexivity).
  split.
  - split; [exact H1|].
    exact (proj1 (is_relevant_job_spec ascii_lower "Senior Data Analyst") H1).
  - split; [exact H2|]. split; [exact H3|].
    exact (proj2 (proj2 (is_relevant_job_spec ascii_lower "Health Data Analyst")) H2 H3).
Defined.

(** Two candidates with one new link, on a connected sheet: one row saved. *)
Lemma save_jobs_dedups_witness :
  let w := sample_world (Some 1) true [] in
  let s := set_worksheet true (init_state (Some sample_sheet)) in
  let j1 := sample_job "https://jobs.example/7" in
  let j2 := sample_job "https://jobs.example/7" in
  link j1 = link j2 /\ (link j1 ∉ existing_links s) /\
  worksheet s = true /\ vagas s = Some sample_sheet /\ append_rows_ok w = true /\
  exists s', save_jobs w [j1; j2] s = (Ret tt, s') /\
    vagas s' = Some (sample_sheet ++ [row_of_job (strftime_minute w (clock s)) j1]).
Proof.
  cbv zeta.
  assert (Hnew : link (sample_job "https://jobs.example/7")
                 ∉ existing_links (set_worksheet true (init_state (Some sample_sheet))))
    by apply not_elem_of_empty.
  split; [reflexivity|]. split; [exact Hnew|].
  split; [reflexivity|]. split; [reflexivity|]. split; [reflexivity|].
  exact (proj2 (proj2 (save_jobs_dedups_on_running_set (sample_world (Some 1) true [])))
           (sample_job "https://jobs.example/7") (sample_job "https://jobs.example/7")
           (set_worksheet true (init_state (Some sample_sheet))) sample_sheet
           eq_refl Hnew eq_refl eq_refl eq_refl).
Defined.

(** Reloading a sheet of two rows assigns the links read from it. *)
Lemma known_links_witness :
  let w := sample_world (Some 1) true [] in
  let s := set_existing_links {[ "https://jobs.example/7" ]}
             (set_worksheet true (init_state (Some sample_sheet))) in
  worksheet s = true /\ vagas s = Some sample_sheet /\
  get_all_values_ok w = true /\ 1 < length sample_sheet /\
  links_of_rows (drop 1 sample_sheet)
    = Ret (existing_links (snd (_load_existing_links w s))).
Proof.
  cbv zeta.
  split; [reflexivity|]. split; [reflexivity|]. split; [reflexivity|].
  split; [cbn; lia|].
  apply (proj1 (proj2 (known_links_grow_in_save_jobs (sample_world (Some 1) true []) _)));
    [reflexivity | reflexivity | reflexivity | cbn; lia].
Defined.

(** A sheet with a three-column row between the header and a full row. *)
Lemma load_existing_links_witness :
  let w := sample_world (Some 1) true [] in
  let sheet := [ headers; ["2024-04-30 20:00"; "Werkstudent"; "Klinik AG"];
                 row_of_job "2024-04-30 20:00" (sample_job "https://jobs.example/1") ] in
  let s := set_worksheet true (init_state (Some sheet)) in
  worksheet s = true /\ vagas s = Some sheet /\ get_all_values_ok w = true /\
  exists s', _load_existing_links w s = (Ret tt, s') /\
    (1 < length sheet ->
     forall l, l ∈ existing_links s' <->
       exists r, r ∈ drop 1 sheet /\ link_column_index < length r /\
                 r !! link_column_index = Some l) /\
    (length sheet <= 1 -> existing_links s' = existing_links s).
Proof.
  cbv zeta.
  split; [reflexivity|]. split; [reflexivity|]. split; [reflexivity|].
  apply (proj2 (proj2 (load_existing_links_tolerates_short_rows
                         (sample_world (Some 1) true []) _))); reflexivity.
Defined.

(** A run in a world without a browser. *)
Lemma start_driver_failure_witness :
  let w := sample_world None true
             [sample_card "Junior eHealth Analyst" "https://jobs.example/2"] in
  let s := init_state (Some sample_sheet) in
  chrome w = None /\
  exists s',
    run_search ascii_lower w s = (Ret tt, s') /\
    trace s' = trace s ++ EvStartDriver ::
                 match driver s with Some d => [EvQuit d] | None => [] end /\
    Forall (fun e => is_persistence_call e = false) (drop (length (trace s)) (trace s')) /\
    vagas s' = vagas s /\ existing_links s' = existing_links s /\
    worksheet s' = worksheet s.
Proof.
  cbv zeta. split; [reflexivity|].
  unfold run_search. apply start_driver_failure_ends_in_cleanup. reflexivity.
Defined.

(** A run whose append raises still quits the driver it started. *)
Lemma run_search_closes_driver_witness :
  let w := sample_world (Some 1) false
             [sample_card "Junior eHealth Analyst" "https://jobs.example/2"] in
  let s := init_state (Some sample_sheet) in
  chrome w = Some 1 /\
  fst (run_search ascii_lower w s) = Ret tt /\
  exists t, trace (snd (run_search ascii_lower w s)) = t ++ [EvQuit 1].
Proof.
  cbv zeta. split; [reflexivity|]. split.
  - apply (proj1 (proj2 (run_search_always_closes_driver ascii_lower _ _))).
  - apply (proj2 (proj2 (run_search_always_closes_driver ascii_lower _ _))). reflexivity.
Defined.

(** * Further properties of the store *)

Lemma sheet_links_cons (r : row) (rows : list row) :
  sheet_links (r :: rows) =
  match r !! link_column_index with
  | Some l => l :: sheet_links rows
  | None => sheet_links rows
  end.
Proof. reflexivity. Qed.

(** The set comprehension of [_load_existing_links] never raises, and
    collects the link-column entries. *)
Lemma links_of_rows_sheet_links (rows : list row) :
  links_of_rows rows = Ret (list_to_set (sheet_links rows)).
Proof.
  induction rows as [|r rows IH]; cbn [links_of_rows]; [reflexivity|].
  rewrite sheet_links_cons.
  destruct (link_column_index <? length r)%nat eqn:E.
  - apply Nat.ltb_lt in E. destruct (r !! link_column_index) as [l|] eqn:L.
    + rewrite IH. reflexivity.
    + apply lookup_ge_None in L. lia.
  - apply Nat.ltb_ge in E.
    assert (L : r !! link_column_index = None) by (apply lookup_ge_None; lia).
    rewrite L. exact IH.
Qed.

Lemma sheet_links_app (a b : list row) :
  sheet_links (a ++ b) = sheet_links a ++ sheet_links b.
Proof. unfold sheet_links. apply omap_app. Qed.

Lemma sheet_links_stamp_rows (w : World) (t : nat) (jobs : list JobPosting) :
  sheet_links (stamp_rows w t jobs) = link <$> jobs.
Proof.
  revert t. induction jobs as [|job rest IH]; intros t; [reflexivity|].
  cbn [stamp_rows]. rewrite sheet_links_cons, row_of_job_link, IH. reflexivity.
Qed.


(** [save_jobs] in full: the state after the loop, then the one append. *)
Lemma save_jobs_run (w : World) (jobs : list JobPosting) (s : State) :
  let fresh := fresh_jobs (existing_links s) jobs in
  let rows := stamp_rows w (clock s) fresh in
  let s1 := set_clock (clock s + length fresh)
              (set_existing_links (existing_links s ∪ list_to_set (link <$> jobs)) s) in
  save_jobs w jobs s =
    match rows with
    | [] => (Ret tt, set_trace (trace s ++ [EvLogNoNew]) s1)
    | _ :: _ =>
        if worksheet s then
          match vagas s with
          | Some old =>
              if append_rows_ok w then
                (Ret tt,
                 set_trace (trace s ++ [EvAppendRows rows; EvLogSaved (length rows)])
                   (set_vagas (Some (old ++ rows)) s1))
              else (Raise APIError, set_trace (trace s ++ [EvAppendRows rows]) s1)
          | None => (Raise APIError, set_trace (trace s ++ [EvAppendRows rows]) s1)
          end
        else (Raise AttributeError, s1)
    end.
Proof.
  cbv zeta. unfold save_jobs. run_m. rewrite save_loop_eq. cbn [app].
  destruct (stamp_rows w (clock s) _) as [|r rows]; run_m; [reflexivity|].
  unfold append_rows. run_m.
  destruct (worksheet s); run_m; [|reflexivity].
  destruct (vagas s); run_m; [|reflexivity].
  destruct (append_rows_ok w); run_m; [|reflexivity].
  rewrite <- app_assoc. reflexivity.
Qed.

Lemma stamp_rows_nil (w : World) (t : nat) (jobs : list JobPosting) :
  stamp_rows w t jobs = [] <-> jobs = [].
Proof. destruct jobs; cbn; split; congruence. Qed.

(** X1.  One batch append: [save_jobs] calls [append_rows] at most once, with
    all the rows its loop staged, and not at all when the loop staged none
    or the manager holds no worksheet. *)
Theorem save_jobs_appends_once (w : World) (jobs : list JobPosting) (s : State) :
  exists rows s1,
    save_loop w jobs [] s = (Ret rows, s1) /\
    append_calls (drop (length (trace s)) (trace (snd (save_jobs w jobs s)))) =
      match rows with
      | [] => []
      | _ :: _ => if worksheet s then [rows] else []
      end.
Proof.
  rewrite save_loop_eq, save_jobs_run. cbn [app]. eexists _, _. split; [reflexivity|].
  destruct (stamp_rows w (clock s) _) as [|r rows].
  - run_m. rewrite drop_app_length. reflexivity.
  - destruct (worksheet s).
    + destruct (vagas s); [destruct (append_rows_ok w)|];
        run_m; rewrite drop_app_length; reflexivity.
    + run_m. rewrite drop_all. reflexivity.
Qed.

Lemma save_jobs_known (w : World) (jobs : list JobPosting) (s : State) :
  (forall job, job ∈ jobs -> link job ∈ existing_links s) ->
  save_jobs w jobs s = (Ret tt, set_trace (trace s ++ [EvLogNoNew]) s).
Proof.
  intros H. unfold save_jobs. run_m. rewrite (save_loop_known _ _ _ _ H). reflexivity.
Qed.

(** X2.  A failed append loses the batch for this set.  When the append
    raises, [save_jobs] raises, the sheet is as before, and the links of the
    batch stay in the set: the same batch given again, with the service
    back, saves nothing. *)
Theorem save_jobs_failed_append_is_not_retried
    (w w2 : World) (jobs : list JobPosting) (s : State) (sheet : list row) :
  worksheet s = true -> vagas s = Some sheet -> append_rows_ok w = false ->
  fresh_jobs (existing_links s) jobs <> [] ->
  exists s',
    save_jobs w jobs s = (Raise APIError, s') /\
    vagas s' = Some sheet /\
    existing_links s' = existing_links s ∪ list_to_set (link <$> jobs) /\
    exists s'', save_jobs w2 jobs s' = (Ret tt, s'') /\ vagas s'' = Some sheet.
Proof.
  intros Hws Hv Hok Hfresh. rewrite save_jobs_run. cbv zeta.
  destruct (stamp_rows w (clock s) _) as [|r rows] eqn:E.
  { apply stamp_rows_nil in E. contradiction. }
  rewrite Hws, Hv, Hok. eexists. split; [reflexivity|]. run_m.
  split; [exact Hv|]. split; [reflexivity|].
  rewrite save_jobs_known.
  - eexists. split; [reflexivity|]. run_m. exact Hv.
  - intros job Hj. run_m.
    apply elem_of_union_r, elem_of_list_to_set, list_elem_of_fmap. now exists job.
Qed.

(** X3.  The set as a mirror of the sheet.  If the set holds exactly the
    links below the first row of a sheet that has a first row, then after a
    [save_jobs] whose append goes through it again holds exactly the links
    below the first row; so the next [_load_existing_links] returns and
    leaves the set as it is. *)
Theorem save_jobs_then_load_round_trip
    (w w2 : World) (jobs : list JobPosting) (s : State) (sheet : list row) :
  worksheet s = true -> vagas s = Some sheet -> 0 < length sheet ->
  existing_links s = list_to_set (sheet_links (drop 1 sheet)) ->
  append_rows_ok w = true -> get_all_values_ok w2 = true ->
  exists s' sheet',
    save_jobs w jobs s = (Ret tt, s') /\ vagas s' = Some sheet' /\
    existing_links s' = list_to_set (sheet_links (drop 1 sheet')) /\
    fst (_load_existing_links w2 s') = Ret tt /\
    existing_links (snd (_load_existing_links w2 s')) = existing_links s'.
Proof.
  intros Hws Hv Hlen Hmirror Hok Hread.
  assert (Hsets : existing_links s ∪ list_to_set (link <$> jobs)
                  = list_to_set (sheet_links (drop 1 sheet)) ∪
                    list_to_set (link <$> fresh_jobs (existing_links s) jobs)).
  { rewrite <- Hmirror. apply set_eq. intros l.
    rewrite !elem_of_union, !elem_of_list_to_set.
    rewrite (proj2 (fresh_jobs_links (existing_links s) jobs) l).
    destruct (decide (l ∈ existing_links s)); tauto. }
  assert (Hrun : exists s',
    save_jobs w jobs s = (Ret tt, s') /\
    worksheet s' = true /\
    vagas s' = Some (sheet ++ stamp_rows w (clock s) (fresh_jobs (existing_links s) jobs)) /\
    existing_links s' = existing_links s ∪ list_to_set (link <$> jobs)).
  { rewrite save_jobs_run. cbv zeta.
    destruct (stamp_rows w (clock s) _) as [|r rows].
    - eexists. split; [reflexivity|]. run_m. rewrite app_nil_r. auto.
    - rewrite Hws, Hv, Hok. eexists. split; [reflexivity|]. run_m. auto. }
  destruct Hrun as (s' & Hrun & Hws' & Hv' & Hl').
  exists s', (sheet ++ stamp_rows w (clock s) (fresh_jobs (existing_links s) jobs)).
  assert (Hmirror' : existing_links s' = list_to_set (sheet_links
            (drop 1 (sheet ++ stamp_rows w (clock s) (fresh_jobs (existing_links s) jobs))))).
  { rewrite Hl', Hsets. destruct sheet as [|r0 sheet]; [cbn in Hlen; lia|].
    cbn [app drop]. rewrite !drop_0, sheet_links_app, sheet_links_stamp_rows.
    now rewrite list_to_set_app_L. }
  split; [exact Hrun|]. split; [exact Hv'|]. split; [exact Hmirror'|].
  unfold _load_existing_links, get_all_values. run_m.
  rewrite Hws'. run_m. rewrite Hv'. run_m. rewrite Hread. run_m.
  destruct (1 <? length _)%nat; run_m; [|split; reflexivity].
  rewrite links_of_rows_sheet_links. run_m. split; [reflexivity|]. now rewrite Hmirror'.
Qed.

Lemma fresh_jobs_sublist (known : gset string) (jobs : list JobPosting) :
  sublist (fresh_jobs known jobs) jobs.
Proof.
  revert known. induction jobs as [|job rest IH]; intros known; cbn; [constructor|].
  destruct (decide (link job ∈ known)); [apply sublist_cons | apply sublist_skip]; apply IH.
Qed.

Lemma fresh_jobs_first (known : gset string) (jobs : list JobPosting) (l : string) :
  l ∉ known ->
  find (fun job => bool_decide (link job = l)) (fresh_jobs known jobs) =
  find (fun job => bool_decide (link job = l)) jobs.
Proof.
  revert known. induction jobs as [|job rest IH]; intros known Hl; cbn; [reflexivity|].
  destruct (decide (link job ∈ known)) as [Hin|Hnin].
  - rewrite bool_decide_eq_false_2 by congruence. now apply IH.
  - cbn. destruct (bool_decide (link job = l)) eqn:E; [reflexivity|].
    apply bool_decide_eq_false in E. apply IH. set_solver.
Qed.

(** X4.  The first occurrence wins.  The candidates staged by the loop of
    [save_jobs] are candidates of the batch in batch order, and for a link
    not known before, the one staged is the first candidate of the batch with
    that link: what later candidates with the same link say is dropped. *)
Theorem save_jobs_first_occurrence_wins (w : World) (jobs : list JobPosting) (s : State) :
  exists fresh s1,
    save_loop w jobs [] s = (Ret (stamp_rows w (clock s) fresh), s1) /\
    sublist fresh jobs /\
    forall l, l ∉ existing_links s ->
      find (fun job => bool_decide (link job = l)) fresh =
      find (fun job => bool_decide (link job = l)) jobs.
Proof.
  rewrite save_loop_eq. cbn [app].
  exists (fresh_jobs (existing_links s) jobs). eexists. split; [reflexivity|].
  split; [apply fresh_jobs_sublist|]. intros l Hl. now apply fresh_jobs_first.
Qed.




(** ** Further properties of [connect] *)

Lemma sheet_links_short (rows : list row) :
  length rows <= 1 -> sheet_links (drop 1 rows) = [].
Proof. destruct rows as [|r [|r' rows]]; cbn; intros H; [reflexivity..|lia]. Qed.

(** Close a branch of [connect]: the calls it made, and the set untouched
    when it raised. *)
Ltac connect_ends t :=
  split; [exists t; now rewrite <- ?app_assoc | first [reflexivity | discriminate]].

(** What [connect] does to the store, whichever way it ends. *)
Lemma connect_store (w : World) (s : State) :
  (unique_links (vagas s) -> unique_links (vagas (snd (connect w s)))) /\
  (fst (connect w s) = Ret tt ->
     links_covered (snd (connect w s)) /\ worksheet (snd (connect w s)) = true) /\
  (exists t, trace (snd (connect w s)) = trace s ++ t /\
             requested_urls t = [] /\ append_calls t = []) /\
  (forall e, fst (connect w s) = Raise e ->
             existing_links (snd (connect w s)) = existing_links s).
Proof.
  unfold connect, _setup_headers, _load_existing_links, get_all_values. run_m.
  destruct (sheets_open_ok w); run_m.
  2:{ split; [auto|]. split; [discriminate|]. connect_ends [EvOpen]. }
  destruct (vagas s) as [rows|] eqn:Hv; run_m.
  - rewrite Hv. run_m.
    destruct (get_all_values_ok w); run_m.
    2:{ split; [now rewrite Hv|]. split; [discriminate|]. connect_ends [EvOpen; EvGetAllValues]. }
    destruct (1 <? length rows)%nat eqn:E; run_m.
    + rewrite links_of_rows_sheet_links. run_m.
      split; [now rewrite Hv|]. split.
      * intros _. split; [|reflexivity]. intros sheet l Hs Hl. run_m.
        cbn in Hs. rewrite Hv in Hs. injection Hs as <-. now apply elem_of_list_to_set.
      * connect_ends [EvOpen; EvGetAllValues].
    + apply Nat.ltb_ge in E. split; [now rewrite Hv|]. split.
      * intros _. split; [|reflexivity]. intros sheet l Hs Hl.
        cbn in Hs. rewrite Hv in Hs. injection Hs as <-.
        rewrite sheet_links_short in Hl by exact E. now apply elem_of_nil in Hl.
      * connect_ends [EvOpen; EvGetAllValues].
  - destruct (add_worksheet_ok w); run_m.
    2:{ split; [now rewrite Hv|]. split; [discriminate|]. connect_ends [EvOpen; EvAddWorksheet]. }
    destruct (append_row_ok w); run_m.
    2:{ split; [intros _; constructor|]. split; [discriminate|].
        connect_ends [EvOpen; EvAddWorksheet; EvAppendRow headers]. }
    destruct (get_all_values_ok w); run_m.
    2:{ split; [intros _; constructor|]. split; [discriminate|].
        connect_ends [EvOpen; EvAddWorksheet; EvAppendRow headers; EvGetAllValues]. }
    split; [intros _; constructor|]. split.
    + intros _. split; [|reflexivity]. intros sheet l Hs Hl.
      cbn in Hs. injection Hs as <-. now apply elem_of_nil in Hl.
    + connect_ends [EvOpen; EvAddWorksheet; EvAppendRow headers; EvGetAllValues].
Qed.

(** X6.  A missing worksheet is created with the header row.  When the
    spreadsheet has no worksheet 'Vagas' and the service answers, [connect]
    returns with a sheet that holds the header row alone, the handle set and
    the known links as they were; the rows [save_jobs] writes have as many
    columns as the header, with the link in the column headed Link. *)
Theorem connect_creates_missing_worksheet (w : World) (s : State) :
  vagas s = None ->
  sheets_open_ok w = true -> add_worksheet_ok w = true ->
  append_row_ok w = true -> get_all_values_ok w = true ->
  exists s',
    connect w s = (Ret tt, s') /\
    vagas s' = Some [headers] /\ worksheet s' = true /\
    existing_links s' = existing_links s /\
    trace s' = trace s ++ [EvOpen; EvAddWorksheet; EvAppendRow headers; EvGetAllValues] /\
    headers !! link_column_index = Some "Link" /\
    forall stamp job,
      length (row_of_job stamp job) = length headers /\
      row_of_job stamp job !! link_column_index = Some (link job).
Proof.
  intros Hv Hopen Hadd Hrow Hread.
  unfold connect, _setup_headers, _load_existing_links, get_all_values. run_m.
  rewrite Hopen. run_m. rewrite Hv. run_m. rewrite Hadd. run_m. rewrite Hrow. run_m.
  rewrite Hread. run_m. eexists. split; [reflexivity|]. run_m.
  rewrite <- !app_assoc. repeat split; reflexivity.
Qed.

(** ** Frame: what leaves the store alone *)






(** ** Further properties of a run *)



Lemma requested_urls_app (a b : list event) :
  requested_urls (a ++ b) = requested_urls a ++ requested_urls b.
Proof. unfold requested_urls. apply omap_app. Qed.

Lemma append_calls_app (a b : list event) :
  append_calls (a ++ b) = append_calls a ++ append_calls b.
Proof. unfold append_calls. apply omap_app. Qed.


(** X9.  When [connect] raises, nothing is scraped.  If the browser starts
    and [connect] raises, at whatever call, the run returns normally: no
    result page is asked for and no [append_rows] call is made, the known
    links are as before, and the run ends by quitting the driver it
    started. *)
Theorem connect_failure_skips_scraping
    (w : World) (scrapers : list (M (list JobPosting))) (s : State) (d : nat) (e : exn) :
  let s0 := set_driver (Some d) (set_trace (trace s ++ [EvStartDriver]) s) in
  chrome w = Some d -> fst (connect w s0) = Raise e ->
  exists s',
    run_search_with w scrapers s = (Ret tt, s') /\
    trace s' = trace (snd (connect w s0)) ++ [EvQuit d] /\
    requested_urls (drop (length (trace s)) (trace s')) = [] /\
    append_calls (drop (length (trace s)) (trace s')) = [] /\
    existing_links s' = existing_links s.
Proof.
  intros s0 Hd He.
  destruct (connect_store w s0) as (_ & _ & (t & Ht & Hurls & Happ) & Hlinks).
  specialize (Hlinks e He). pose proof (keeps_driver_connect w s0) as Hdrv.
  unfold run_search_with, search_and_save, start_driver, try_finally. run_m.
  rewrite Hd. run_m. fold s0.
  destruct (connect w s0) as [[[]|e'] s1]; cbn [fst snd] in *; [discriminate|].
  run_m. rewrite close_driver_run, Hdrv. run_m.
  eexists. split; [reflexivity|]. run_m. rewrite Ht. subst s0. run_m.
  split; [reflexivity|]. rewrite <- !app_assoc, drop_app_length.
  rewrite !requested_urls_app, !append_calls_app, Hurls, Happ.
  repeat split. exact Hlinks.
Qed.

Lemma run_search_with_driver (w : World) (scrapers : list (M (list JobPosting)))
    (s : State) :
  Forall keeps_driver scrapers ->
  driver (snd (run_search_with w scrapers s)) =
    match chrome w with Some d => Some d | None => driver s end /\
  forall d, driver (snd (run_search_with w scrapers s)) = Some d ->
    exists t, trace (snd (run_search_with w scrapers s)) = t ++ [EvQuit d].
Proof.
  intros Hs. unfold run_search_with, try_finally.
  assert (Hdrv : driver (snd (try_except (search_and_save w scrapers)
                                 (fun _ => mret tt) s)) =
                 match chrome w with Some d => Some d | None => driver s end).
  { destruct (chrome w) as [d|] eqn:Hd.
    - now apply search_and_save_keeps_new_driver.
    - unfold search_and_save, start_driver. run_m. rewrite Hd. reflexivity. }
  destruct (try_except _ _ s) as [r s1]. cbn [snd] in Hdrv.
  rewrite close_driver_run. run_m. split; [exact Hdrv|].
  intros d Hd. exists (trace s1). now rewrite Hd.
Qed.

(** X10.  The driver handle is never cleared.  After [run_search] the manager
    holds the driver this run started, or, when the start failed, the handle
    it held before; and whenever it holds one, the last call of the run was
    to quit it.  So once a browser has been started, a later run whose
    start fails quits the old driver again. *)
Theorem run_search_never_clears_driver
    (lower : string -> string) (w : World) (s : State) :
  driver (snd (run_search lower w s)) =
    match chrome w with Some d => Some d | None => driver s end /\
  forall d, driver (snd (run_search lower w s)) = Some d ->
    exists t, trace (snd (run_search lower w s)) = t ++ [EvQuit d].
Proof.
  apply run_search_with_driver. repeat constructor; apply keeps_driver_search_jobs.
Qed.

(** ** Further properties of the scrapers *)

Section ScraperFacts.

Variable lower : string -> string.
Variable w : World.
Variable site : Site.





End ScraperFacts.



(** * The further theorems at concrete inputs *)



(** A new posting whose append raises is not saved by a second call. *)
Lemma save_jobs_failed_append_witness :
  let w := sample_world (Some 1) false [] in
  let w2 := sample_world (Some 1) true [] in
  let jobs := [sample_job "https://jobs.example/7"] in
  worksheet sample_state = true /\ vagas sample_state = Some sample_sheet /\
  append_rows_ok w = false /\
  fresh_jobs (existing_links sample_state) jobs <> [] /\
  exists s',
    save_jobs w jobs sample_state = (Raise APIError, s') /\
    vagas s' = Some sample_sheet /\
    existing_links s' = existing_links sample_state ∪ list_to_set (link <$> jobs) /\
    exists s'', save_jobs w2 jobs s' = (Ret tt, s'') /\ vagas s'' = Some sample_sheet.
Proof.
  cbv zeta.
  assert (Hfresh : fresh_jobs (existing_links sample_state)
                     [sample_job "https://jobs.example/7"] <> [])
    by (vm_compute; discriminate).
  split; [reflexivity|]. split; [reflexivity|]. split; [reflexivity|].
  split; [exact Hfresh|].
  exact (save_jobs_failed_append_is_not_retried
           (sample_world (Some 1) false []) (sample_world (Some 1) true [])
           [sample_job "https://jobs.example/7"] sample_state sample_sheet
           eq_refl eq_refl eq_refl Hfresh).
Defined.

(** Saving one new posting to the sample sheet, then loading it again. *)
Lemma save_jobs_then_load_witness :
  let w := sample_world (Some 1) true [] in
  let jobs := [sample_job "https://jobs.example/7"] in
  worksheet sample_state = true /\ vagas sample_state = Some sample_sheet /\
  0 < length sample_sheet /\
  existing_links sample_state = list_to_set (sheet_links (drop 1 sample_sheet)) /\
  append_rows_ok w = true /\ get_all_values_ok w = true /\
  exists s' sheet',
    save_jobs w jobs sample_state = (Ret tt, s') /\ vagas s' = Some sheet' /\
    existing_links s' = list_to_set (sheet_links (drop 1 sheet')) /\
    fst (_load_existing_links w s') = Ret tt /\
    existing_links (snd (_load_existing_links w s')) = existing_links s'.
Proof.
  cbv zeta.
  assert (Hlen : 0 < length sample_sheet) by (cbn; lia).
  split; [reflexivity|]. split; [reflexivity|]. split; [exact Hlen|].
  split; [reflexivity|]. split; [reflexivity|]. split; [reflexivity|].
  exact (save_jobs_then_load_round_trip
           (sample_world (Some 1) true []) (sample_world (Some 1) true [])
           [sample_job "https://jobs.example/7"] sample_state sample_sheet
           eq_refl eq_refl Hlen eq_refl eq_refl eq_refl).
Defined.


(** A first connection to a spreadsheet without the worksheet. *)
Lemma connect_creates_missing_worksheet_witness :
  let w := sample_world (Some 1) true [] in
  let s := init_state None in
  vagas s = None /\ sheets_open_ok w = true /\ add_worksheet_ok w = true /\
  append_row_ok w = true /\ get_all_values_ok w = true /\
  exists s',
    connect w s = (Ret tt, s') /\
    vagas s' = Some [headers] /\ worksheet s' = true /\
    existing_links s' = existing_links s /\
    trace s' = trace s ++ [EvOpen; EvAddWorksheet; EvAppendRow headers; EvGetAllValues] /\
    headers !! link_column_index = Some "Link" /\
    forall stamp job,
      length (row_of_job stamp job) = length headers /\
      row_of_job stamp job !! link_column_index = Some (link job).
Proof.
  cbv zeta. repeat (split; [reflexivity|]).
  exact (connect_creates_missing_worksheet (sample_world (Some 1) true [])
           (init_state None) eq_refl eq_refl eq_refl eq_refl eq_refl).
Defined.


(** A run with the spreadsheet service out of reach. *)
Lemma connect_failure_witness :
  let s := init_state (Some sample_sheet) in
  let s0 := set_driver (Some 1) (set_trace (trace s ++ [EvStartDriver]) s) in
  chrome offline_world = Some 1 /\ fst (connect offline_world s0) = Raise APIError /\
  exists s',
    run_search ascii_lower offline_world s = (Ret tt, s') /\
    trace s' = trace (snd (connect offline_world s0)) ++ [EvQuit 1] /\
    requested_urls (drop (length (trace s)) (trace s')) = [] /\
    append_calls (drop (length (trace s)) (trace s')) = [] /\
    existing_links s' = existing_links s.
Proof.
  cbv zeta. split; [reflexivity|]. split; [reflexivity|].
  exact (connect_failure_skips_scraping offline_world _ (init_state (Some sample_sheet))
           1 APIError eq_refl eq_refl).
Defined.

(** * A run that goes through *)





